(** * timeconvs: timestamp conversions between DVS, Lidar and Realsense clocks

    A shallow embedding of [timeconvs.py] and the properties of its
    interval mapper and of its native/relative conversions.

    Numeric model.  Python floats and the entries of numpy arrays are
    modelled as exact rationals ([Qc], canonical fractions with Leibniz
    equality); rounding, infinities and NaN are outside that model.  The
    one place where numpy leaves the rationals, an array divided by zero, is
    recorded as its own result ([ONonFinite]).  Comparisons of floats are
    exact, so which rule a timestamp selects does not depend on this choice;
    the value of an arithmetic expression does.  The one property below that
    turns on rounding, the round trip between the native and the relative
    format, is therefore stated on [Binary64], where the two formulas are
    computed on binary64 floats as Python computes them.

    Dynamic typing.  The module keeps whatever [json.loads] returned and
    reads it with subscripts at every call, so the calibration document is
    modelled as an untyped JSON tree and every subscript, truth test and
    arithmetic operand is checked when it is reached, in the evaluation order
    of the Python source.  An operand that is not a number makes the
    operation a [TypeError]; numpy's broadcasting of a list operand against
    an array is not modelled, and neither is numpy's silence when an empty
    array or an empty selection meets an operand that is not a number. *)

From Stdlib Require Import List String Ascii Bool Arith Lia.
From Stdlib Require Import QArith Qcanon.
From Stdlib Require PrimFloat SpecFloat FloatOps.
Import ListNotations.

Local Open Scope string_scope.
Local Open Scope Qc_scope.

(** ** Numbers *)

(** A decimal literal of the source or of a calibration document. *)
Definition num (q : Q) : Qc := Q2Qc q.

(** [x < y] and [x <= y] on floats, as booleans. *)
Definition Qcltb (x y : Qc) : bool :=
  match x ?= y with Lt => true | _ => false end.

Definition Qcleb (x y : Qc) : bool :=
  match x ?= y with Gt => false | _ => true end.

Definition Qceqb (x y : Qc) : bool :=
  match x ?= y with Eq => true | _ => false end.

(** ** Python values *)

(** What [json.loads] returns: [None], [bool], a number, [str], [list] or
    [dict].  A dict keeps its keys in insertion order and its keys are
    strings. *)
#[local] Unset Elimination Schemes.
Inductive json : Type :=
| JNull
| JBool (b : bool)
| JNum (q : Qc)
| JStr (s : string)
| JArr (items : list json)
| JObj (fields : list (string * json)).
#[local] Set Elimination Schemes.

(** The exceptions the module can raise. *)
Inductive exn : Type :=
| RuntimeError
| KeyError
| IndexError
| TypeError
| ZeroDivisionError
| ValueError
| OSError.

Inductive result (A : Type) : Type :=
| Ok (a : A)
| Err (e : exn).

Arguments Ok {A} a.
Arguments Err {A} e.

Definition bind {A B : Type} (r : result A) (k : A -> result B) : result B :=
  match r with
  | Ok a => k a
  | Err e => Err e
  end.

Notation "x <- r ;; k" := (bind r (fun x => k))
  (at level 61, r at next level, right associativity).

(** The argument of a conversion: [float | numpy array]. *)
Inductive timestamps : Type :=
| Scalar (t : Qc)
| Batch (ts : list Qc).

(** What a conversion returns: [None], a float, an array, or an array whose
    entries are [inf] or [nan] (of which only the shape is kept). *)
Inductive output : Type :=
| ONone
| OScalar (t : Qc)
| OBatch (ts : list Qc)
| ONonFinite (shape : nat).

(** The value of a comparison: a [bool] for a float, a boolean array for an
    array. *)
Inductive mask : Type :=
| MBool (b : bool)
| MArr (bs : list bool).

(** *** Truth value, [is None], subscripts, iteration *)

(** [bool(v)]: [None], [False], zero and the empty string, list and dict
    are false. *)
Definition truthy (v : json) : bool :=
  match v with
  | JNull => false
  | JBool b => b
  | JNum q => negb (Qceqb q 0)
  | JStr s => negb (String.eqb s "")
  | JArr items => match items with [] => false | _ :: _ => true end
  | JObj fields => match fields with [] => false | _ :: _ => true end
  end.

Definition is_None (v : json) : bool :=
  match v with
  | JNull => true
  | _ => false
  end.

Fixpoint lookup (k : string) (fields : list (string * json)) : option json :=
  match fields with
  | [] => None
  | (k', v) :: rest => if String.eqb k k' then Some v else lookup k rest
  end.

(** [v[k]] for a string [k]. *)
Definition getitem (v : json) (k : string) : result json :=
  match v with
  | JObj fields =>
      match lookup k fields with
      | Some x => Ok x
      | None => Err KeyError
      end
  | _ => Err TypeError
  end.

(** [v[i]] for an index [i >= 0]. *)
Definition getidx (v : json) (i : nat) : result json :=
  match v with
  | JArr items =>
      match nth_error items i with
      | Some x => Ok x
      | None => Err IndexError
      end
  | JStr s =>
      match String.get i s with
      | Some c => Ok (JStr (String c ""))
      | None => Err IndexError
      end
  | JObj _ => Err KeyError
  | _ => Err TypeError
  end.

Fixpoint chars (s : string) : list json :=
  match s with
  | EmptyString => []
  | String c rest => JStr (String c "") :: chars rest
  end.

(** The items [for tc in v] runs over. *)
Definition iterate (v : json) : result (list json) :=
  match v with
  | JArr items => Ok items
  | JObj fields => Ok (map (fun kv => JStr (fst kv)) fields)
  | JStr s => Ok (chars s)
  | _ => Err TypeError
  end.

(** *** Arithmetic and comparison against a value of the document *)

(** The number a value stands for as an operand ([True] is 1). *)
Definition as_num (v : json) : result Qc :=
  match v with
  | JNum q => Ok q
  | JBool b => Ok (if b then 1 else 0)
  | _ => Err TypeError
  end.

(** [x > v] *)
Definition py_gt (x : timestamps) (v : json) : result mask :=
  n <- as_num v ;;
  Ok (match x with
      | Scalar t => MBool (Qcltb n t)
      | Batch ts => MArr (map (fun t => Qcltb n t) ts)
      end).

(** [x <= v] *)
Definition py_le (x : timestamps) (v : json) : result mask :=
  n <- as_num v ;;
  Ok (match x with
      | Scalar t => MBool (Qcleb t n)
      | Batch ts => MArr (map (fun t => Qcleb t n) ts)
      end).

Fixpoint zip_and (a b : list bool) : list bool :=
  match a, b with
  | x :: a', y :: b' => (x && y) :: zip_and a' b'
  | _, _ => []
  end.

(** [a & b] *)
Definition py_and (a b : mask) : mask :=
  match a, b with
  | MBool x, MBool y => MBool (x && y)
  | MBool x, MArr ys => MArr (map (andb x) ys)
  | MArr xs, MBool y => MArr (map (fun x => x && y) xs)
  | MArr xs, MArr ys => MArr (zip_and xs ys)
  end.

(** [x[indexes]]: the entries of [x] selected by a boolean array. *)
Fixpoint select (xs : list Qc) (indexes : list bool) : list Qc :=
  match xs, indexes with
  | x :: xs', i :: indexes' =>
      if i then x :: select xs' indexes' else select xs' indexes'
  | _, _ => []
  end.

(** [out[indexes] = vals]: the selected positions of [out] take the values
    of [vals] in order, the others are kept. *)
Fixpoint scatter (out : list Qc) (indexes : list bool) (vals : list Qc) : list Qc :=
  match out, indexes with
  | o :: out', true :: indexes' =>
      match vals with
      | v :: vals' => v :: scatter out' indexes' vals'
      | [] => out
      end
  | o :: out', false :: indexes' => o :: scatter out' indexes' vals
  | _, _ => out
  end.

(** ** The calibration store *)

(** The module-level variable [TIMECONVS]. *)
Definition store : Type := json.

(** [TIMECONVS = None] *)
Definition TIMECONVS : store := JNull.

Section Loading.

(** [json.loads] and reading a file are library calls. *)
Variable json_loads : string -> result json.
Variable read_file : string -> result string.

(** [load_from_json_string]: the store is replaced by the parsed document;
    when parsing raises, the assignment is not reached. *)
Definition load_from_json_string (json_string : string) (st : store)
  : store * result unit :=
  match json_loads json_string with
  | Ok doc => (doc, Ok tt)
  | Err e => (st, Err e)
  end.

Definition load_from_file (filename : string) (st : store)
  : store * result unit :=
  match read_file filename with
  | Ok text => load_from_json_string text st
  | Err e => (st, Err e)
  end.

End Loading.

(** ** The interval mapper *)

(** Lines 84-92: the membership test of one rule. *)
Definition indexes_of (tc : json) (x : timestamps) : result mask :=
  interval <- getitem tc "interval" ;;
  inner <- getitem tc "inner" ;;
  if truthy inner then
    lo <- getidx interval 0 ;;
    a <- py_gt x lo ;;
    hi <- getidx interval 1 ;;
    b <- py_le x hi ;;
    Ok (py_and a b)
  else
    lo <- getidx interval 0 ;;
    if is_None lo then
      hi <- getidx interval 1 ;;
      py_le x hi
    else
      hi <- getidx interval 1 ;;
      if is_None hi then
        lo' <- getidx interval 0 ;;
        py_gt x lo'
      else Err RuntimeError.

(** The operands of [... * tc["conv_k"] + tc["conv_b"]], read in that
    order. *)
Definition coefficients (tc : json) : result (Qc * Qc) :=
  k <- getitem tc "conv_k" ;;
  kn <- as_num k ;;
  b <- getitem tc "conv_b" ;;
  bn <- as_num b ;;
  Ok (kn, bn).

(** Lines 84-96: one turn of the loop.  For an array the right-hand side is
    evaluated at every rule; for a float only when the test holds.  The test
    of an array is an array and that of a float a [bool], so the remaining
    combinations do not arise. *)
Definition rule_step (tc : json) (x : timestamps) (acc : output) : result output :=
  indexes <- indexes_of tc x ;;
  match x with
  | Batch ts =>
      match indexes, acc with
      | MArr bs, OBatch out =>
          kb <- coefficients tc ;;
          let vals := map (fun t => t * fst kb + snd kb) (select ts bs) in
          Ok (OBatch (scatter out bs vals))
      | _, _ => Err TypeError
      end
  | Scalar t =>
      match indexes with
      | MBool true =>
          kb <- coefficients tc ;;
          Ok (OScalar (t * fst kb + snd kb))
      | MBool false => Ok acc
      | MArr _ => Err TypeError
      end
  end.

(** Lines 83-96: [for tc in ...]. *)
Fixpoint rule_loop (tcs : list json) (x : timestamps) (acc : output) : result output :=
  match tcs with
  | [] => Ok acc
  | tc :: rest =>
      acc' <- rule_step tc x acc ;;
      rule_loop rest x acc'
  end.

(** Lines 77-81: [np.full_like(x, 0)] for an array, [None] otherwise. *)
Definition initial_output (x : timestamps) : output :=
  match x with
  | Batch ts => OBatch (map (fun _ => 0) ts)
  | Scalar _ => ONone
  end.

(** The body shared by the four cross-sensor conversions, which differ in
    the key of the rule table only. *)
Definition convert (table : string) (st : store) (x : timestamps) : result output :=
  if negb (truthy st) then Err RuntimeError
  else
    let timeconvs := st in
    let acc := initial_output x in
    v <- getitem timeconvs table ;;
    tcs <- iterate v ;;
    rule_loop tcs x acc.

Definition convert_rs_to_dvs : store -> timestamps -> result output :=
  convert "rs_to_dvs".

Definition convert_lidar_to_dvs : store -> timestamps -> result output :=
  convert "lidar_to_dvs".

Definition convert_dvs_to_rs : store -> timestamps -> result output :=
  convert "dvs_to_rs".

Definition convert_dvs_to_lidar : store -> timestamps -> result output :=
  convert "dvs_to_lidar".

(** ** Native and relative formats *)

Inductive sensor : Type := DVS | LIDAR | RS.

Definition scale_key (s : sensor) : string :=
  match s with
  | DVS => "dvs_timestamp_scale"
  | LIDAR => "lidar_timestamp_scale"
  | RS => "rs_timestamp_scale"
  end.

Definition offset_key (s : sensor) : string :=
  match s with
  | DVS => "dvs_offset_s"
  | LIDAR => "lidar_offset_s"
  | RS => "rs_offset_s"
  end.

(** [x / d]: Python raises on a zero divisor; numpy warns and fills the
    array with [inf] and [nan]. *)
Definition py_div (x : timestamps) (d : Qc) : result output :=
  match x with
  | Scalar t =>
      if Qceqb d 0 then Err ZeroDivisionError else Ok (OScalar (t / d))
  | Batch ts =>
      if Qceqb d 0 then Ok (ONonFinite (List.length ts))
      else Ok (OBatch (map (fun t => t / d) ts))
  end.

(** [ts * timeconvs[scale] - timeconvs[offset]] *)
Definition native_to_relative (s : sensor) (st : store) (ts : timestamps)
  : result output :=
  if negb (truthy st) then Err RuntimeError
  else
    let timeconvs := st in
    scale <- getitem timeconvs (scale_key s) ;;
    k <- as_num scale ;;
    offset <- getitem timeconvs (offset_key s) ;;
    b <- as_num offset ;;
    Ok (match ts with
        | Scalar t => OScalar (t * k - b)
        | Batch l => OBatch (map (fun t => t * k - b) l)
        end).

(** [(ts + timeconvs[offset]) / timeconvs[scale]] *)
Definition relative_to_native (s : sensor) (st : store) (ts : timestamps)
  : result output :=
  if negb (truthy st) then Err RuntimeError
  else
    let timeconvs := st in
    offset <- getitem timeconvs (offset_key s) ;;
    b <- as_num offset ;;
    scale <- getitem timeconvs (scale_key s) ;;
    k <- as_num scale ;;
    py_div (match ts with
            | Scalar t => Scalar (t + b)
            | Batch l => Batch (map (fun t => t + b) l)
            end) k.

Definition dvs_native_to_relative := native_to_relative DVS.
Definition dvs_relative_to_native := relative_to_native DVS.
Definition lidar_native_to_relative := native_to_relative LIDAR.
Definition lidar_relative_to_native := relative_to_native LIDAR.
Definition rs_native_to_relative := native_to_relative RS.
Definition rs_relative_to_native := relative_to_native RS.

(** ** Every conversion of the module *)

Inductive cross : Type := RsToDvs | LidarToDvs | DvsToRs | DvsToLidar.

Definition table_key (c : cross) : string :=
  match c with
  | RsToDvs => "rs_to_dvs"
  | LidarToDvs => "lidar_to_dvs"
  | DvsToRs => "dvs_to_rs"
  | DvsToLidar => "dvs_to_lidar"
  end.

Definition cross_convert (c : cross) : store -> timestamps -> result output :=
  match c with
  | RsToDvs => convert_rs_to_dvs
  | LidarToDvs => convert_lidar_to_dvs
  | DvsToRs => convert_dvs_to_rs
  | DvsToLidar => convert_dvs_to_lidar
  end.

Inductive conversion : Type :=
| Cross (c : cross)
| NativeToRelative (s : sensor)
| RelativeToNative (s : sensor).

Definition call (f : conversion) : store -> timestamps -> result output :=
  match f with
  | Cross c => cross_convert c
  | NativeToRelative DVS => dvs_native_to_relative
  | NativeToRelative LIDAR => lidar_native_to_relative
  | NativeToRelative RS => rs_native_to_relative
  | RelativeToNative DVS => dvs_relative_to_native
  | RelativeToNative LIDAR => lidar_relative_to_native
  | RelativeToNative RS => rs_relative_to_native
  end.

(** ** Calibration documents in the format of the dataset *)

(** One rule of a table: [{"interval": [lo, hi], "inner": ..., "conv_k":
    ..., "conv_b": ...}], an absent endpoint being [null]. *)
Record IntervalRule : Type := {
  lo : option Qc;
  hi : option Qc;
  inner : bool;
  conv_k : Qc;
  conv_b : Qc
}.

Definition decode_bound (v : json) : option (option Qc) :=
  match v with
  | JNull => Some None
  | JNum q => Some (Some q)
  | _ => None
  end.

(** The rule a JSON object spells, when it has the four fields with the
    types of the format. *)
Definition decode_rule (tc : json) : option IntervalRule :=
  match getitem tc "interval", getitem tc "inner",
        getitem tc "conv_k", getitem tc "conv_b" with
  | Ok (JArr [a; b]), Ok (JBool i), Ok (JNum k), Ok (JNum c) =>
      match decode_bound a, decode_bound b with
      | Some l, Some h =>
          Some {| lo := l; hi := h; inner := i; conv_k := k; conv_b := c |}
      | _, _ => None
      end
  | _, _, _, _ => None
  end.

Fixpoint decode_rules (tcs : list json) : option (list IntervalRule) :=
  match tcs with
  | [] => Some []
  | tc :: rest =>
      match decode_rule tc, decode_rules rest with
      | Some r, Some rs => Some (r :: rs)
      | _, _ => None
      end
  end.

Definition decode_table (doc : json) (table : string) : option (list IntervalRule) :=
  match getitem doc table with
  | Ok (JArr tcs) => decode_rules tcs
  | _ => None
  end.

(** The invariant of a rule: an inner rule has both endpoints, any other
    rule exactly one. *)
Definition well_formed (r : IntervalRule) : bool :=
  match inner r, lo r, hi r with
  | true, Some _, Some _ => true
  | false, None, Some _ => true
  | false, Some _, None => true
  | _, _, _ => false
  end.

(** The test of a well-formed rule, branch by branch as in lines 85-90. *)
Definition in_interval (r : IntervalRule) (t : Qc) : bool :=
  if inner r then
    match lo r, hi r with
    | Some a, Some b => Qcltb a t && Qcleb t b
    | _, _ => false
    end
  else
    match lo r, hi r with
    | None, Some b => Qcleb t b
    | Some a, None => Qcltb a t
    | _, _ => false
    end.

Definition apply_rule (r : IntervalRule) (t : Qc) : Qc :=
  t * conv_k r + conv_b r.

(** The last, respectively first, rule of a table whose test holds at [t]. *)
Definition last_match (rules : list IntervalRule) (t : Qc) : option IntervalRule :=
  find (fun r => in_interval r t) (rev rules).

Definition first_match (rules : list IntervalRule) (t : Qc) : option IntervalRule :=
  find (fun r => in_interval r t) rules.

(** A table has the four rule tables, all rules well formed, and a nonzero
    scale and an offset for every sensor. *)
Definition valid_table (doc : json) (c : cross) : bool :=
  match decode_table doc (table_key c) with
  | Some rules => forallb well_formed rules
  | None => false
  end.

Definition valid_sensor (doc : json) (s : sensor) : bool :=
  match getitem doc (scale_key s), getitem doc (offset_key s) with
  | Ok (JNum k), Ok (JNum _) => negb (Qceqb k 0)
  | _, _ => false
  end.

Definition valid_document (doc : json) : bool :=
  forallb (valid_table doc) [RsToDvs; LidarToDvs; DvsToRs; DvsToLidar]
  && forallb (valid_sensor doc) [DVS; LIDAR; RS].

(** ** Example documents *)

Definition bound_json (b : option Qc) : json :=
  match b with
  | Some q => JNum q
  | None => JNull
  end.

Definition rule_json (r : IntervalRule) : json :=
  JObj [("interval", JArr [bound_json (lo r); bound_json (hi r)]);
        ("inner", JBool (inner r));
        ("conv_k", JNum (conv_k r));
        ("conv_b", JNum (conv_b r))].

Definition mk_rule (l h : option Q) (i : bool) (k b : Q) : IntervalRule :=
  {| lo := option_map num l; hi := option_map num h; inner := i;
     conv_k := num k; conv_b := num b |}.

(** A document with the given [rs_to_dvs] table, empty other tables and
    the given scale and offset for the three sensors. *)
Definition document (rs_to_dvs : list IntervalRule) (scale offset : Q) : json :=
  JObj [("rs_to_dvs", JArr (map rule_json rs_to_dvs));
        ("lidar_to_dvs", JArr []);
        ("dvs_to_rs", JArr []);
        ("dvs_to_lidar", JArr []);
        ("dvs_timestamp_scale", JNum (num scale));
        ("dvs_offset_s", JNum (num offset));
        ("lidar_timestamp_scale", JNum (num scale));
        ("lidar_offset_s", JNum (num offset));
        ("rs_timestamp_scale", JNum (num scale));
        ("rs_offset_s", JNum (num offset))].

(** The calibration of the end-to-end scenario. *)
Definition scenario : json :=
  document [mk_rule None (Some 10.0%Q) false 2.0 1.0;
            mk_rule (Some 10.0%Q) None false 3.0 (-5.0)]
           0.000001 12.5.

(** Two rules that overlap on [t <= 10]. *)
Definition overlapping : json :=
  document [mk_rule None (Some 10.0%Q) false 2.0 1.0;
            mk_rule None (Some 20.0%Q) false 3.0 0.0]
           0.000001 12.5.

(** A rule that is not inner and has no endpoint. *)
Definition unbounded : json :=
  document [mk_rule None None false 2.0 1.0] 0.000001 12.5.

(** A rule that is not inner and has both endpoints. *)
Definition two_sided : json :=
  document [mk_rule (Some 1.0%Q) (Some 2.0%Q) false 2.0 1.0] 0.000001 12.5.

(** One inner rule, [1 < t <= 2]. *)
Definition inner_1_2 : IntervalRule :=
  mk_rule (Some 1.0%Q) (Some 2.0%Q) true 2.0 1.0.

Definition one_inner : json :=
  document [inner_1_2] 0.000001 12.5.

(** A document whose scales are zero. *)
Definition zero_scale : json :=
  document [] 0 12.5.

(** ** Reading the loop rule by rule *)

(** What a rule leaves at a position that held [old]. *)
Definition write (t : Qc) (old : Qc) (r : IntervalRule) : Qc :=
  if in_interval r t then apply_rule r t else old.

Definition write_scalar (t : Qc) (old : output) (r : IntervalRule) : output :=
  if in_interval r t then OScalar (apply_rule r t) else old.

(** An array after one rule, position by position. *)
Definition overwrite (r : IntervalRule) (ts out : list Qc) : list Qc :=
  map (fun p => write (fst p) (snd p) r) (combine ts out).

(** The test of a rule holds, respectively fails, at [t]. *)
Definition matches (tc : json) (t : Qc) : Prop :=
  indexes_of tc (Scalar t) = Ok (MBool true).

Definition rejects (tc : json) (t : Qc) : Prop :=
  indexes_of tc (Scalar t) = Ok (MBool false).

(** ** Callers and further example documents *)

(** A caller that loads one text after the other. *)
Definition load_all (json_loads : string -> result json) (texts : list string)
    (st : store) : store :=
  fold_left (fun s text => fst (load_from_json_string json_loads text s)) texts st.

(** A parser over three texts: a calibration, an empty object, and anything
    else, which is not JSON. *)
Definition sample_loads (doc : json) (text : string) : result json :=
  if String.eqb text "calibration" then Ok doc
  else if String.eqb text "{}" then Ok (JObj [])
  else Err ValueError.

(** A file system with the one file [timeconvs.json]. *)
Definition sample_files (filename : string) : result string :=
  if String.eqb filename "timeconvs.json" then Ok "calibration"
  else Err OSError.

(** A document that has the [rs_to_dvs] table and nothing else. *)
Definition only_rs_to_dvs : json :=
  JObj [("rs_to_dvs", JArr (map rule_json [inner_1_2]))].

(** The rule [1 < t <= 2] without its [conv_k]. *)
Definition rule_without_conv_k : json :=
  JObj [("interval", JArr [JNum (num 1.0); JNum (num 2.0)]);
        ("inner", JBool true);
        ("conv_b", JNum (num 1.0))].

Definition table_without_conv_k : json :=
  JObj [("rs_to_dvs", JArr [rule_without_conv_k])].

(** An inner rule whose lower endpoint is absent. *)
Definition inner_without_lo : json :=
  document [mk_rule None (Some 2.0%Q) true 2.0 1.0] 0.000001 12.5.

(** The three rules [t <= 1], [1 < t <= 2] and [t > 2]. *)
Definition partition : json :=
  document [mk_rule None (Some 1.0%Q) false 1.0 0.0;
            inner_1_2;
            mk_rule (Some 2.0%Q) None false 3.0 (-1.0)]
           0.000001 12.5.

(** The value of a scalar conversion as an array entry: the float it
    returned, and zero when it returned [None]. *)
Definition entry_of (r : result output) : Qc :=
  match r with
  | Ok (OScalar v) => v
  | _ => 0
  end.

(** ** The native and relative formats in binary64 *)

(** The two formulas on Python floats: every operation is the binary64
    operation, rounded to nearest.  [scale] and [offset] are the two floats
    that both directions read from the table; a decimal literal of the
    document is the binary64 float nearest to it. *)
Module Binary64.

Import PrimFloat SpecFloat FloatOps.

(** Line 213: [ts * scale - offset]. *)
Definition native_to_relative (scale offset ts : float) : float :=
  PrimFloat.sub (PrimFloat.mul ts scale) offset.

(** Line 227: [(ts + offset) / scale]; Python raises on a zero divisor. *)
Definition relative_to_native (scale offset ts : float) : result float :=
  if PrimFloat.eqb scale PrimFloat.zero then Err ZeroDivisionError
  else Ok (PrimFloat.div (PrimFloat.add ts offset) scale).



(** The rational a finite float stands for. *)
Definition value (x : float) : option Q :=
  match Prim2SF x with
  | S754_zero _ => Some 0%Q
  | S754_finite s m e =>
      Some ((if s then -1 else 1) * inject_Z (Zpos m) * Qpower 2 e)%Q
  | S754_infinity _ => None
  | S754_nan => None
  end.

(** An operation on two finite floats returned the exact result. *)
Definition exact (op : float -> float -> float) (qop : Q -> Q -> Q)
    (a b : float) : bool :=
  match value a, value b, value (op a b) with
  | Some va, Some vb, Some vr => Qeq_bool vr (qop va vb)
  | _, _, _ => false
  end.




(** The scale and offset of the example calibration, the timestamp 5.0
    with its relative format and what comes back from it, and a scale that
    is a power of two.  A decimal literal that is not a binary64 float
    denotes the nearest one, as in Python. *)
#[local] Set Warnings "-inexact-float".
#[local] Set Warnings "inexact-float".

End Binary64.

(** * Properties *)

(** ** Comparisons *)

Lemma Qcltb_lt (x y : Qc) : Qcltb x y = true <-> x < y.
Proof.
  unfold Qcltb. rewrite Qclt_alt.
  destruct (x ?= y); split; congruence.
Qed.

Lemma Qcleb_le (x y : Qc) : Qcleb x y = true <-> x <= y.
Proof.
  unfold Qcleb. rewrite Qcle_alt.
  destruct (x ?= y); split; congruence.
Qed.

Lemma Qceqb_eq (x y : Qc) : Qceqb x y = true <-> x = y.
Proof.
  unfold Qceqb. rewrite Qceq_alt.
  destruct (x ?= y); split; congruence.
Qed.

Lemma Qceqb_neq (x y : Qc) : Qceqb x y = false <-> x <> y.
Proof.
  rewrite <- Qceqb_eq. destruct (Qceqb x y); split; congruence.
Qed.

(** Closes an equation between two concrete scalar results. *)
Ltac qc_compute :=
  vm_compute; do 2 f_equal; apply Qc_is_canon; reflexivity.

(** Refutes an equation between two concrete scalar results. *)
Ltac qc_differ :=
  let H := fresh in
  intros H;
  apply (f_equal (fun o => match o with
                           | Ok (OScalar v) => Some (this v)
                           | _ => None
                           end)) in H;
  vm_compute in H; discriminate.

(** ** Reading a document *)

Lemma getitem_truthy (doc : json) (k : string) (v : json) :
  getitem doc k = Ok v -> truthy doc = true.
Proof.
  destruct doc as [| | | | |fields]; simpl; try discriminate.
  destruct fields; simpl; [discriminate | reflexivity].
Qed.

Lemma decode_bound_json (v : json) (b : option Qc) :
  decode_bound v = Some b -> v = bound_json b.
Proof.
  destruct v; simpl; intros H; inversion H; reflexivity.
Qed.

Lemma decode_rule_fields (tc : json) (r : IntervalRule) :
  decode_rule tc = Some r ->
  getitem tc "interval" = Ok (JArr [bound_json (lo r); bound_json (hi r)])
  /\ getitem tc "inner" = Ok (JBool (inner r))
  /\ getitem tc "conv_k" = Ok (JNum (conv_k r))
  /\ getitem tc "conv_b" = Ok (JNum (conv_b r)).
Proof.
  unfold decode_rule.
  destruct (getitem tc "interval") as [[| | | |[|a [|b [|? ?]]]|]|]; try discriminate.
  destruct (getitem tc "inner") as [[]|]; try discriminate.
  destruct (getitem tc "conv_k") as [[]|]; try discriminate.
  destruct (getitem tc "conv_b") as [[]|]; try discriminate.
  destruct (decode_bound a) as [l|] eqn:Ha; try discriminate.
  destruct (decode_bound b) as [h|] eqn:Hb; try discriminate.
  intros H; inversion H; subst; simpl.
  rewrite (decode_bound_json _ _ Ha), (decode_bound_json _ _ Hb).
  repeat split.
Qed.

Lemma decode_rule_json (r : IntervalRule) : decode_rule (rule_json r) = Some r.
Proof.
  destruct r as [[a|] [b|] i k c]; reflexivity.
Qed.

Lemma decode_rules_json (rules : list IntervalRule) :
  decode_rules (map rule_json rules) = Some rules.
Proof.
  induction rules as [|r rules IH]; simpl; [reflexivity|].
  rewrite decode_rule_json, IH. reflexivity.
Qed.

(** ** The membership test of a decoded rule *)

Lemma zip_and_map (f g : Qc -> bool) (ts : list Qc) :
  zip_and (map f ts) (map g ts) = map (fun t => f t && g t) ts.
Proof.
  induction ts as [|t ts IH]; simpl; [reflexivity | now rewrite IH].
Qed.

Lemma indexes_of_scalar (tc : json) (r : IntervalRule) (t : Qc) :
  decode_rule tc = Some r -> well_formed r = true ->
  indexes_of tc (Scalar t) = Ok (MBool (in_interval r t)).
Proof.
  intros Hd Hw. destruct (decode_rule_fields _ _ Hd) as (Hi & Hn & _).
  unfold indexes_of. rewrite Hi, Hn.
  destruct r as [[a|] [b|] [] k c]; simpl in *; try discriminate; reflexivity.
Qed.

Lemma indexes_of_batch (tc : json) (r : IntervalRule) (ts : list Qc) :
  decode_rule tc = Some r -> well_formed r = true ->
  indexes_of tc (Batch ts) = Ok (MArr (map (in_interval r) ts)).
Proof.
  intros Hd Hw. destruct (decode_rule_fields _ _ Hd) as (Hi & Hn & _).
  unfold indexes_of. rewrite Hi, Hn.
  destruct r as [[a|] [b|] [] k c]; simpl in *; try discriminate;
    unfold in_interval; simpl; try reflexivity.
  now rewrite zip_and_map.
Qed.

Lemma coefficients_decoded (tc : json) (r : IntervalRule) :
  decode_rule tc = Some r -> coefficients tc = Ok (conv_k r, conv_b r).
Proof.
  intros Hd. destruct (decode_rule_fields _ _ Hd) as (_ & _ & Hk & Hb).
  unfold coefficients. now rewrite Hk, Hb.
Qed.

(** ** One turn of the loop *)

Lemma scatter_select (m : Qc -> bool) (f : Qc -> Qc) (ts out : list Qc) :
  List.length out = List.length ts ->
  scatter out (map m ts) (map f (select ts (map m ts)))
  = map (fun p => if m (fst p) then f (fst p) else snd p) (combine ts out).
Proof.
  revert out. induction ts as [|t ts IH]; intros [|o out] Hlen;
    simpl in *; try discriminate; try reflexivity.
  injection Hlen as Hlen.
  destruct (m t); simpl; now rewrite IH.
Qed.

Lemma overwrite_length (r : IntervalRule) (ts out : list Qc) :
  List.length out = List.length ts ->
  List.length (overwrite r ts out) = List.length ts.
Proof.
  intros H. unfold overwrite.
  rewrite length_map, length_combine, H. apply Nat.min_id.
Qed.

Lemma rule_step_scalar (tc : json) (r : IntervalRule) (t : Qc) (acc : output) :
  decode_rule tc = Some r -> well_formed r = true ->
  rule_step tc (Scalar t) acc = Ok (write_scalar t acc r).
Proof.
  intros Hd Hw. unfold rule_step, write_scalar.
  rewrite (indexes_of_scalar _ _ _ Hd Hw). simpl.
  destruct (in_interval r t); [|reflexivity].
  now rewrite (coefficients_decoded _ _ Hd).
Qed.

Lemma rule_step_batch (tc : json) (r : IntervalRule) (ts out : list Qc) :
  decode_rule tc = Some r -> well_formed r = true ->
  List.length out = List.length ts ->
  rule_step tc (Batch ts) (OBatch out) = Ok (OBatch (overwrite r ts out)).
Proof.
  intros Hd Hw Hlen. unfold rule_step.
  rewrite (indexes_of_batch _ _ _ Hd Hw). simpl.
  rewrite (coefficients_decoded _ _ Hd). simpl.
  now rewrite (scatter_select (in_interval r) (fun t => t * conv_k r + conv_b r)).
Qed.

(** ** The whole loop *)

Lemma rule_loop_scalar (tcs : list json) (rules : list IntervalRule) (t : Qc) :
  decode_rules tcs = Some rules -> forallb well_formed rules = true ->
  forall acc,
    rule_loop tcs (Scalar t) acc = Ok (fold_left (write_scalar t) rules acc).
Proof.
  revert rules. induction tcs as [|tc tcs IH]; intros rules Hd Hw acc; simpl in *.
  - injection Hd as <-. reflexivity.
  - destruct (decode_rule tc) as [r|] eqn:Hr; [|discriminate].
    destruct (decode_rules tcs) as [rs|]; [|discriminate].
    injection Hd as <-. simpl in Hw. apply andb_prop in Hw as [Hw1 Hw2].
    rewrite (rule_step_scalar _ _ _ _ Hr Hw1). simpl.
    now apply IH.
Qed.

Lemma rule_loop_batch (tcs : list json) (rules : list IntervalRule) (ts : list Qc) :
  decode_rules tcs = Some rules -> forallb well_formed rules = true ->
  forall out, List.length out = List.length ts ->
    rule_loop tcs (Batch ts) (OBatch out)
    = Ok (OBatch (map (fun p => fold_left (write (fst p)) rules (snd p))
                      (combine ts out))).
Proof.
  revert rules. induction tcs as [|tc tcs IH]; intros rules Hd Hw out Hlen; simpl in *.
  - injection Hd as <-. simpl. do 2 f_equal.
    revert out Hlen. induction ts as [|t ts IHts]; intros [|o out] Hlen;
      simpl in *; try discriminate; try reflexivity.
    injection Hlen as Hlen. now rewrite <- IHts.
  - destruct (decode_rule tc) as [r|] eqn:Hr; [|discriminate].
    destruct (decode_rules tcs) as [rs|]; [|discriminate].
    injection Hd as <-. simpl in Hw. apply andb_prop in Hw as [Hw1 Hw2].
    rewrite (rule_step_batch _ _ _ _ Hr Hw1 Hlen). simpl.
    rewrite (IH rs eq_refl Hw2 _ (overwrite_length r ts out Hlen)).
    do 2 f_equal. unfold overwrite. clear.
    revert out. induction ts as [|t ts IHts]; intros [|o out];
      simpl; try reflexivity.
    now rewrite IHts.
Qed.

(** Folding the rules over one position leaves the value of the last rule
    whose test holds there. *)
Lemma fold_write_last (t : Qc) (rules : list IntervalRule) (d : Qc) :
  fold_left (write t) rules d
  = match last_match rules t with
    | Some r => apply_rule r t
    | None => d
    end.
Proof.
  unfold last_match. induction rules as [|r rules IH] using rev_ind; [reflexivity|].
  rewrite fold_left_app, rev_app_distr. simpl. unfold write at 1.
  destruct (in_interval r t); [reflexivity | exact IH].
Qed.

Lemma fold_write_scalar_last (t : Qc) (rules : list IntervalRule) (acc : output) :
  fold_left (write_scalar t) rules acc
  = match last_match rules t with
    | Some r => OScalar (apply_rule r t)
    | None => acc
    end.
Proof.
  unfold last_match. induction rules as [|r rules IH] using rev_ind; [reflexivity|].
  rewrite fold_left_app, rev_app_distr. simpl. unfold write_scalar at 1.
  destruct (in_interval r t); [reflexivity | exact IH].
Qed.

Lemma combine_zeros (ts : list Qc) :
  combine ts (map (fun _ => 0) ts) = map (fun t => (t, 0)) ts.
Proof.
  induction ts as [|t ts IH]; simpl; [reflexivity | now rewrite IH].
Qed.

(** ** The conversions on a decoded table *)

Lemma cross_convert_eq (c : cross) : cross_convert c = convert (table_key c).
Proof. destruct c; reflexivity. Qed.

Lemma decode_table_inv (doc : json) (table : string) (rules : list IntervalRule) :
  decode_table doc table = Some rules ->
  exists tcs, getitem doc table = Ok (JArr tcs) /\ decode_rules tcs = Some rules.
Proof.
  unfold decode_table.
  destruct (getitem doc table) as [[| | | |tcs|]|]; try discriminate.
  intros H. now exists tcs.
Qed.

Lemma convert_scalar (table : string) (doc : json) (rules : list IntervalRule) (t : Qc) :
  decode_table doc table = Some rules -> forallb well_formed rules = true ->
  convert table doc (Scalar t)
  = Ok (match last_match rules t with
        | Some r => OScalar (apply_rule r t)
        | None => ONone
        end).
Proof.
  intros Hd Hw. destruct (decode_table_inv _ _ _ Hd) as (tcs & Hg & Hr).
  unfold convert. rewrite (getitem_truthy _ _ _ Hg), Hg. simpl.
  rewrite (rule_loop_scalar _ _ _ Hr Hw). now rewrite fold_write_scalar_last.
Qed.

Lemma convert_batch (table : string) (doc : json) (rules : list IntervalRule)
    (ts : list Qc) :
  decode_table doc table = Some rules -> forallb well_formed rules = true ->
  convert table doc (Batch ts)
  = Ok (OBatch (map (fun t => fold_left (write t) rules 0) ts)).
Proof.
  intros Hd Hw. destruct (decode_table_inv _ _ _ Hd) as (tcs & Hg & Hr).
  unfold convert. rewrite (getitem_truthy _ _ _ Hg), Hg. simpl.
  rewrite (rule_loop_batch _ _ _ Hr Hw) by apply length_map.
  now rewrite combine_zeros, map_map.
Qed.

Lemma convert_batch_nth (table : string) (doc : json)
    (rules : list IntervalRule) (ts : list Qc) :
  decode_table doc table = Some rules ->
  forallb well_formed rules = true ->
  exists out,
    convert table doc (Batch ts) = Ok (OBatch out)
    /\ forall i t, nth_error ts i = Some t ->
         nth_error out i
         = Some (match last_match rules t with
                 | Some r => apply_rule r t
                 | None => 0
                 end).
Proof.
  intros Hd Hw. exists (map (fun t => fold_left (write t) rules 0) ts).
  split; [now apply convert_batch|].
  intros i t Hi. rewrite nth_error_map, Hi. simpl.
  now rewrite fold_write_last.
Qed.

(** ** The membership test *)

Lemma matches_iff (tc : json) (r : IntervalRule) (t : Qc) :
  decode_rule tc = Some r -> well_formed r = true ->
  (matches tc t <-> in_interval r t = true)
  /\ (rejects tc t <-> in_interval r t = false).
Proof.
  intros Hd Hw. unfold matches, rejects.
  rewrite (indexes_of_scalar _ _ t Hd Hw).
  destruct (in_interval r t); split; split; congruence.
Qed.

Lemma andb_false_not (a b : bool) (P Q : Prop) :
  (a = true <-> P) -> (b = true <-> Q) -> (a && b = false <-> ~ (P /\ Q)).
Proof.
  intros HP HQ. rewrite <- HP, <- HQ.
  destruct a, b; simpl; split; intros H; try reflexivity;
    try discriminate; try (intros [? ?]; discriminate).
  exfalso. apply H. now split.
Qed.

Lemma false_not (a : bool) (P : Prop) : (a = true <-> P) -> (a = false <-> ~ P).
Proof.
  intros HP. rewrite <- HP. destruct a; split; intros H;
    try reflexivity; try discriminate.
  exfalso. now apply H.
Qed.

(** C1. The membership test of a rule [(lo, hi, inner)] at a timestamp [t]:
    an inner rule matches iff [lo < t <= hi]; a rule that is not inner
    matches iff [t <= hi] when [lo] is absent, and iff [t > lo] when [hi] is
    absent; in each case the test otherwise answers false.  An array is
    tested position by position with the same answers.  In particular the
    inner rule with [lo = 1.0] and [hi = 2.0] rejects [1.0] and matches
    [2.0]. *)
Theorem membership_test (tc : json) (r : IntervalRule) :
  decode_rule tc = Some r ->
  (forall a b t, inner r = true -> lo r = Some a -> hi r = Some b ->
     (matches tc t <-> a < t /\ t <= b)
     /\ (rejects tc t <-> ~ (a < t /\ t <= b)))
  /\ (forall b t, inner r = false -> lo r = None -> hi r = Some b ->
     (matches tc t <-> t <= b) /\ (rejects tc t <-> ~ t <= b))
  /\ (forall a t, inner r = false -> hi r = None -> lo r = Some a ->
     (matches tc t <-> a < t) /\ (rejects tc t <-> ~ a < t))
  /\ (forall ts, well_formed r = true ->
     exists bs, indexes_of tc (Batch ts) = Ok (MArr bs)
       /\ List.length bs = List.length ts
       /\ forall i t, nth_error ts i = Some t ->
            (nth_error bs i = Some true <-> matches tc t)
            /\ (nth_error bs i = Some false <-> rejects tc t))
  /\ (inner r = true -> lo r = Some (num 1.0) -> hi r = Some (num 2.0) ->
     rejects tc (num 1.0) /\ matches tc (num 2.0)).
Proof.
  intros Hd.
  assert (Hin : forall a b t, inner r = true -> lo r = Some a -> hi r = Some b ->
     (matches tc t <-> a < t /\ t <= b)
     /\ (rejects tc t <-> ~ (a < t /\ t <= b))).
  { intros a b t Hi Hl Hh.
    assert (Hw : well_formed r = true) by (unfold well_formed; now rewrite Hi, Hl, Hh).
    destruct (matches_iff _ _ t Hd Hw) as [Hm Hr]. rewrite Hm, Hr.
    unfold in_interval. rewrite Hi, Hl, Hh. split.
    - now rewrite andb_true_iff, Qcltb_lt, Qcleb_le.
    - apply andb_false_not; [apply Qcltb_lt | apply Qcleb_le]. }
  split; [exact Hin|]. split; [|split; [|split]].
  - intros b t Hi Hl Hh.
    assert (Hw : well_formed r = true) by (unfold well_formed; now rewrite Hi, Hl, Hh).
    destruct (matches_iff _ _ t Hd Hw) as [Hm Hr]. rewrite Hm, Hr.
    unfold in_interval. rewrite Hi, Hl, Hh. split.
    + apply Qcleb_le.
    + apply false_not, Qcleb_le.
  - intros a t Hi Hh Hl.
    assert (Hw : well_formed r = true) by (unfold well_formed; now rewrite Hi, Hl, Hh).
    destruct (matches_iff _ _ t Hd Hw) as [Hm Hr]. rewrite Hm, Hr.
    unfold in_interval. rewrite Hi, Hl, Hh. split.
    + apply Qcltb_lt.
    + apply false_not, Qcltb_lt.
  - intros ts Hw. exists (map (in_interval r) ts).
    split; [now apply indexes_of_batch|]. split; [apply length_map|].
    intros i t Hi. destruct (matches_iff _ _ t Hd Hw) as [Hm Hr]. rewrite Hm, Hr.
    rewrite nth_error_map, Hi. simpl. split; split; congruence.
  - intros Hi Hl Hh. split.
    + apply (Hin _ _ (num 1.0) Hi Hl Hh). intros [H _]. revert H. now vm_compute.
    + apply (Hin _ _ (num 2.0) Hi Hl Hh). split; now vm_compute.
Qed.

Lemma membership_test_inner_1_2 :
  rejects (rule_json inner_1_2) (num 1.0) /\ matches (rule_json inner_1_2) (num 2.0).
Proof.
  apply (membership_test (rule_json inner_1_2) inner_1_2 eq_refl); reflexivity.
Defined.

(** ** Scalar input *)

(** C2, as the code has it.  For a float, the loop does not stop at the
    first rule whose test holds: each later rule whose test holds replaces
    the value, so the result is [t * conv_k + conv_b] of the last such rule
    of the table, and [None] when there is none. *)
Theorem scalar_last_match (c : cross) (doc : json) (rules : list IntervalRule)
    (t : Qc) :
  decode_table doc (table_key c) = Some rules ->
  forallb well_formed rules = true ->
  cross_convert c doc (Scalar t)
  = Ok (match last_match rules t with
        | Some r => OScalar (t * conv_k r + conv_b r)
        | None => ONone
        end).
Proof.
  intros Hd Hw. rewrite cross_convert_eq. now apply convert_scalar.
Qed.

Lemma scalar_last_match_scenario :
  convert_rs_to_dvs scenario (Scalar (num 5.0))
  = Ok (OScalar (num 5.0 * num 2.0 + num 1.0)).
Proof.
  exact (scalar_last_match RsToDvs scenario _ (num 5.0)
           (decode_rules_json _) eq_refl).
Defined.

(** C2, as stated, fails.  In [overlapping] the first rule whose test holds
    at 5.0 has coefficients 2.0 and 1.0, and the conversion returns
    [5.0 * 3.0 + 0.0], the value of the second rule. *)
Lemma scalar_first_match_overridden :
  exists r1 r2,
    decode_table overlapping "rs_to_dvs" = Some [r1; r2]
    /\ matches (rule_json r1) (num 5.0)
    /\ first_match [r1; r2] (num 5.0) = Some r1
    /\ convert_rs_to_dvs overlapping (Scalar (num 5.0))
       = Ok (OScalar (num 5.0 * conv_k r2 + conv_b r2))
    /\ convert_rs_to_dvs overlapping (Scalar (num 5.0))
       <> Ok (OScalar (num 5.0 * conv_k r1 + conv_b r1)).
Proof.
  exists (mk_rule None (Some 10.0%Q) false 2.0 1.0),
         (mk_rule None (Some 20.0%Q) false 3.0 0.0).
  repeat split; try reflexivity.
  qc_differ.
Qed.

(** ** Batch input *)

(** C3.  For an array the result is an array of the same length; at every
    position it holds what is left of an initial zero after the rules, in
    list order, have each overwritten it with [t * conv_k + conv_b] when
    their test holds at [t] and kept it otherwise; so it is the value of the
    last rule of the table whose test holds there, and zero when there is
    none. *)
Theorem batch_last_write_wins (c : cross) (doc : json)
    (rules : list IntervalRule) (ts : list Qc) :
  decode_table doc (table_key c) = Some rules ->
  forallb well_formed rules = true ->
  exists out,
    cross_convert c doc (Batch ts) = Ok (OBatch out)
    /\ List.length out = List.length ts
    /\ out = map (fun t => fold_left (write t) rules 0) ts
    /\ forall i t, nth_error ts i = Some t ->
         nth_error out i
         = Some (match last_match rules t with
                 | Some r => t * conv_k r + conv_b r
                 | None => 0
                 end).
Proof.
  intros Hd Hw. exists (map (fun t => fold_left (write t) rules 0) ts).
  rewrite cross_convert_eq. split; [now apply convert_batch|].
  split; [apply length_map|]. split; [reflexivity|].
  intros i t Hi. rewrite nth_error_map, Hi. simpl.
  now rewrite fold_write_last.
Qed.

Lemma batch_last_write_wins_overlapping :
  exists out,
    convert_rs_to_dvs overlapping (Batch [num 5.0; num 15.0; num 25.0])
    = Ok (OBatch out)
    /\ nth_error out 0 = Some (num 5.0 * num 3.0 + num 0.0)
    /\ nth_error out 2 = Some 0.
Proof.
  destruct (batch_last_write_wins RsToDvs overlapping _
              [num 5.0; num 15.0; num 25.0] (decode_rules_json _) eq_refl)
    as (out & Hc & _ & _ & Hn).
  exists out. split; [exact Hc|]. split.
  - exact (Hn 0%nat (num 5.0) eq_refl).
  - exact (Hn 2%nat (num 25.0) eq_refl).
Defined.

(** ** Batch against scalar *)

(** C4, as the code has it.  At every position of an array whose timestamp
    matches at least one rule, the array conversion holds the value the
    scalar conversion returns for that timestamp, which is the value of the
    last matching rule also when several rules match. *)
Theorem batch_agrees_with_scalar_on_match (c : cross) (doc : json)
    (rules : list IntervalRule) (ts : list Qc) :
  decode_table doc (table_key c) = Some rules ->
  forallb well_formed rules = true ->
  exists out,
    cross_convert c doc (Batch ts) = Ok (OBatch out)
    /\ forall i t, nth_error ts i = Some t ->
         existsb (fun r => in_interval r t) rules = true ->
         exists r, last_match rules t = Some r
           /\ nth_error out i = Some (t * conv_k r + conv_b r)
           /\ cross_convert c doc (Scalar t)
              = Ok (OScalar (t * conv_k r + conv_b r)).
Proof.
  intros Hd Hw.
  destruct (convert_batch_nth _ doc rules ts Hd Hw) as (out & Hc & Hn).
  exists out. split; [now rewrite cross_convert_eq|].
  intros i t Hi Hex.
  assert (Hl : exists r, last_match rules t = Some r).
  { unfold last_match. apply existsb_exists in Hex as (r & Hr & Hm).
    destruct (find (fun r => in_interval r t) (rev rules)) as [r'|] eqn:Hf;
      [now exists r'|].
    apply in_rev in Hr. apply (find_none _ _ Hf) in Hr.
    simpl in Hr. congruence. }
  destruct Hl as (r & Hl). exists r. split; [exact Hl|]. split.
  - rewrite (Hn i t Hi), Hl. reflexivity.
  - rewrite cross_convert_eq, (convert_scalar _ _ _ t Hd Hw), Hl. reflexivity.
Qed.

Lemma batch_agrees_with_scalar_overlapping :
  exists out,
    convert_rs_to_dvs overlapping (Batch [num 5.0]) = Ok (OBatch out)
    /\ exists r,
         nth_error out 0 = Some (num 5.0 * conv_k r + conv_b r)
         /\ convert_rs_to_dvs overlapping (Scalar (num 5.0))
            = Ok (OScalar (num 5.0 * conv_k r + conv_b r)).
Proof.
  destruct (batch_agrees_with_scalar_on_match RsToDvs overlapping _
              [num 5.0] (decode_rules_json _) eq_refl) as (out & Hc & Hn).
  exists out. split; [exact Hc|].
  destruct (Hn 0%nat (num 5.0) eq_refl eq_refl) as (r & _ & Hb & Hs).
  exists r. split; [exact Hb | exact Hs].
Defined.

(** C4, as stated, fails where no rule matches.  The only rule of
    [one_inner] is [1 < t <= 2]; at 5.0 the array conversion holds the
    initial zero and the scalar conversion returns [None]. *)
Lemma batch_scalar_differ_without_match :
  rejects (rule_json inner_1_2) (num 5.0)
  /\ convert_rs_to_dvs one_inner (Batch [num 5.0]) = Ok (OBatch [0])
  /\ convert_rs_to_dvs one_inner (Scalar (num 5.0)) = Ok ONone
  /\ convert_rs_to_dvs one_inner (Scalar (num 5.0)) <> Ok (OScalar 0).
Proof.
  repeat split; try reflexivity. discriminate.
Qed.

(** ** Native and relative formats *)





(** ** The end-to-end scenario *)

(** C6, as the code has it.  With the rules [t <= 10.0 -> 2.0 t + 1.0] and
    [t > 10.0 -> 3.0 t - 5.0], [convert_rs_to_dvs] maps 5.0 to 11.0, 10.0,
    still in the first rule, to 21.0, and 10.0001 to 25.0003. *)
Theorem end_to_end_scenario :
  decode_table scenario "rs_to_dvs"
  = Some [mk_rule None (Some 10.0%Q) false 2.0 1.0;
          mk_rule (Some 10.0%Q) None false 3.0 (-5.0)]
  /\ convert_rs_to_dvs scenario (Scalar (num 5.0)) = Ok (OScalar (num 11.0))
  /\ convert_rs_to_dvs scenario (Scalar (num 10.0)) = Ok (OScalar (num 21.0))
  /\ convert_rs_to_dvs scenario (Scalar (num 10.0001))
     = Ok (OScalar (num 25.0003)).
Proof.
  split; [reflexivity|]. repeat split; qc_compute.
Qed.

(** C6, as stated, fails at 10.0: the first rule gives
    [10.0 * 2.0 + 1.0], not 11.0. *)
Lemma end_to_end_boundary_value :
  matches (rule_json (mk_rule None (Some 10.0%Q) false 2.0 1.0)) (num 10.0)
  /\ rejects (rule_json (mk_rule (Some 10.0%Q) None false 3.0 (-5.0))) (num 10.0)
  /\ convert_rs_to_dvs scenario (Scalar (num 10.0))
     = Ok (OScalar (num 10.0 * num 2.0 + num 1.0))
  /\ convert_rs_to_dvs scenario (Scalar (num 10.0)) <> Ok (OScalar (num 11.0)).
Proof.
  repeat split; try reflexivity. qc_differ.
Qed.

(** ** Malformed rules *)

Lemma rule_loop_app (pre post : list json) (x : timestamps) (acc : output) :
  rule_loop (pre ++ post) x acc
  = acc' <- rule_loop pre x acc ;; rule_loop post x acc'.
Proof.
  revert acc. induction pre as [|tc pre IH]; intros acc; simpl; [reflexivity|].
  destruct (rule_step tc x acc); simpl; [apply IH | reflexivity].
Qed.

(** C7, as the code has it.  When the loop reaches a rule whose [inner] is
    false and whose two endpoints are both present, the conversion raises
    [RuntimeError], for a float and for an array. *)
Theorem two_sided_rule_runtime_error (c : cross) (st : store)
    (pre post : list json) (tc interval inner lo hi : json)
    (x : timestamps) (acc : output) :
  getitem st (table_key c) = Ok (JArr (pre ++ tc :: post)) ->
  rule_loop pre x (initial_output x) = Ok acc ->
  getitem tc "interval" = Ok interval ->
  getitem tc "inner" = Ok inner ->
  truthy inner = false ->
  getidx interval 0 = Ok lo -> is_None lo = false ->
  getidx interval 1 = Ok hi -> is_None hi = false ->
  cross_convert c st x = Err RuntimeError.
Proof.
  intros Hg Hpre Hiv Hin Hf Hlo Hnlo Hhi Hnhi.
  rewrite cross_convert_eq. unfold convert.
  rewrite (getitem_truthy _ _ _ Hg), Hg. simpl.
  rewrite rule_loop_app, Hpre. simpl.
  unfold rule_step, indexes_of.
  rewrite Hiv, Hin. simpl. rewrite Hf, Hlo. simpl.
  rewrite Hnlo, Hhi. simpl. rewrite Hnhi. reflexivity.
Qed.

Lemma two_sided_rule_runtime_error_example :
  convert_rs_to_dvs two_sided (Scalar (num 5.0)) = Err RuntimeError
  /\ convert_rs_to_dvs two_sided (Batch [num 5.0]) = Err RuntimeError.
Proof.
  split.
  - apply (two_sided_rule_runtime_error RsToDvs two_sided [] []
             (rule_json (mk_rule (Some 1.0%Q) (Some 2.0%Q) false 2.0 1.0))
             (JArr [JNum (num 1.0); JNum (num 2.0)]) (JBool false)
             (JNum (num 1.0)) (JNum (num 2.0)) (Scalar (num 5.0)) ONone);
      reflexivity.
  - apply (two_sided_rule_runtime_error RsToDvs two_sided [] []
             (rule_json (mk_rule (Some 1.0%Q) (Some 2.0%Q) false 2.0 1.0))
             (JArr [JNum (num 1.0); JNum (num 2.0)]) (JBool false)
             (JNum (num 1.0)) (JNum (num 2.0)) (Batch [num 5.0]) (OBatch [0]));
      reflexivity.
Defined.

(** C7, as stated, fails for a rule with no endpoint.  Its absent [lo]
    sends it to the branch [t <= hi], where the comparison with the absent
    [hi] raises [TypeError]; the [RuntimeError] of the last branch is not
    reached. *)
Lemma unbounded_rule_type_error :
  decode_table unbounded "rs_to_dvs" = Some [mk_rule None None false 2.0 1.0]
  /\ convert_rs_to_dvs unbounded (Scalar (num 5.0)) = Err TypeError
  /\ convert_rs_to_dvs unbounded (Scalar (num 5.0)) <> Err RuntimeError.
Proof.
  repeat split; try reflexivity. discriminate.
Qed.

(** ** The store *)

Lemma call_not_initialized (f : conversion) (st : store) (x : timestamps) :
  truthy st = false -> call f st x = Err RuntimeError.
Proof.
  intros H.
  destruct f as [[]|[]|[]]; simpl;
    unfold convert_rs_to_dvs, convert_lidar_to_dvs, convert_dvs_to_rs,
      convert_dvs_to_lidar, convert,
      dvs_native_to_relative, lidar_native_to_relative, rs_native_to_relative,
      dvs_relative_to_native, lidar_relative_to_native, rs_relative_to_native,
      native_to_relative, relative_to_native;
    now rewrite H.
Qed.

Lemma valid_document_table (doc : json) (c : cross) :
  valid_document doc = true -> valid_table doc c = true.
Proof.
  unfold valid_document. intros H. apply andb_prop in H as [H _].
  simpl in H. rewrite !andb_true_iff in H.
  destruct c; tauto.
Qed.

Lemma valid_document_sensor (doc : json) (s : sensor) :
  valid_document doc = true -> valid_sensor doc s = true.
Proof.
  unfold valid_document. intros H. apply andb_prop in H as [_ H].
  simpl in H. rewrite !andb_true_iff in H.
  destruct s; tauto.
Qed.

Lemma call_valid (f : conversion) (doc : json) (x : timestamps) :
  valid_document doc = true -> exists o, call f doc x = Ok o.
Proof.
  intros Hv. destruct f as [c | s | s].
  - pose proof (valid_document_table doc c Hv) as Ht.
    unfold valid_table in Ht.
    destruct (decode_table doc (table_key c)) as [rules|] eqn:Hd; [|discriminate].
    simpl. rewrite cross_convert_eq. destruct x as [t | ts].
    + rewrite (convert_scalar _ _ _ t Hd Ht). eauto.
    + rewrite (convert_batch _ _ _ ts Hd Ht). eauto.
  - pose proof (valid_document_sensor doc s Hv) as Hs.
    unfold valid_sensor in Hs.
    destruct (getitem doc (scale_key s)) as [[| |k| | |]|] eqn:Hk; try discriminate.
    destruct (getitem doc (offset_key s)) as [[| |b| | |]|] eqn:Hb; try discriminate.
    assert (Hcall : call (NativeToRelative s) = native_to_relative s)
      by (destruct s; reflexivity).
    rewrite Hcall. unfold native_to_relative.
    rewrite (getitem_truthy _ _ _ Hk), Hk, Hb. simpl. eauto.
  - pose proof (valid_document_sensor doc s Hv) as Hs.
    unfold valid_sensor in Hs.
    destruct (getitem doc (scale_key s)) as [[| |k| | |]|] eqn:Hk; try discriminate.
    destruct (getitem doc (offset_key s)) as [[| |b| | |]|] eqn:Hb; try discriminate.
    assert (Hcall : call (RelativeToNative s) = relative_to_native s)
      by (destruct s; reflexivity).
    rewrite Hcall. unfold relative_to_native.
    rewrite (getitem_truthy _ _ _ Hk), Hk, Hb. simpl.
    apply negb_true_iff in Hs. unfold py_div.
    destruct x; rewrite Hs; eauto.
Qed.

(** C8.  With the store as the module leaves it at import, each of the ten
    conversions raises [RuntimeError]; once [load_from_json_string] has
    loaded a valid document, the same call returns. *)
Theorem load_then_convert (json_loads : string -> result json) (text : string)
    (doc : json) (f : conversion) (x : timestamps) :
  json_loads text = Ok doc ->
  valid_document doc = true ->
  call f TIMECONVS x = Err RuntimeError
  /\ snd (load_from_json_string json_loads text TIMECONVS) = Ok tt
  /\ exists o,
       call f (fst (load_from_json_string json_loads text TIMECONVS)) x = Ok o.
Proof.
  intros Hl Hv. split; [now apply call_not_initialized|].
  unfold load_from_json_string. rewrite Hl. simpl.
  split; [reflexivity | now apply call_valid].
Qed.

Lemma load_then_convert_scenario :
  call (Cross RsToDvs) TIMECONVS (Scalar (num 5.0)) = Err RuntimeError
  /\ snd (load_from_json_string (fun _ => Ok scenario) "timeconvs" TIMECONVS)
     = Ok tt
  /\ exists o,
       call (Cross RsToDvs)
         (fst (load_from_json_string (fun _ => Ok scenario) "timeconvs" TIMECONVS))
         (Scalar (num 5.0)) = Ok o.
Proof.
  apply (load_then_convert (fun _ => Ok scenario) "timeconvs" scenario
           (Cross RsToDvs) (Scalar (num 5.0)) eq_refl).
  vm_compute. reflexivity.
Defined.

(** C9.  When the parsed document is falsy, the load succeeds and every
    later conversion raises the [RuntimeError] it raises when nothing was
    ever loaded: the guard tests the truth value of the store. *)
Theorem falsy_document_not_initialized (json_loads : string -> result json)
    (text : string) (doc : json) (st : store) (f : conversion) (x : timestamps) :
  json_loads text = Ok doc ->
  truthy doc = false ->
  snd (load_from_json_string json_loads text st) = Ok tt
  /\ fst (load_from_json_string json_loads text st) = doc
  /\ call f (fst (load_from_json_string json_loads text st)) x = Err RuntimeError
  /\ call f (fst (load_from_json_string json_loads text st)) x
     = call f TIMECONVS x.
Proof.
  intros Hl Hf. unfold load_from_json_string. rewrite Hl. simpl.
  split; [reflexivity|]. split; [reflexivity|].
  rewrite (call_not_initialized f doc x Hf).
  split; [reflexivity|]. symmetry. now apply call_not_initialized.
Qed.

Lemma falsy_document_examples :
  call (Cross RsToDvs)
    (fst (load_from_json_string (fun _ => Ok (JObj [])) "{}" scenario))
    (Scalar (num 5.0)) = Err RuntimeError
  /\ call (NativeToRelative DVS)
       (fst (load_from_json_string (fun _ => Ok (JArr [])) "[]" scenario))
       (Scalar (num 5.0)) = Err RuntimeError
  /\ call (RelativeToNative RS)
       (fst (load_from_json_string (fun _ => Ok JNull) "null" scenario))
       (Batch [num 5.0]) = Err RuntimeError.
Proof.
  split; [|split].
  - apply (falsy_document_not_initialized (fun _ => Ok (JObj [])) "{}" (JObj [])
             scenario (Cross RsToDvs) (Scalar (num 5.0)) eq_refl eq_refl).
  - apply (falsy_document_not_initialized (fun _ => Ok (JArr [])) "[]" (JArr [])
             scenario (NativeToRelative DVS) (Scalar (num 5.0)) eq_refl eq_refl).
  - apply (falsy_document_not_initialized (fun _ => Ok JNull) "null" JNull
             scenario (RelativeToNative RS) (Batch [num 5.0]) eq_refl eq_refl).
Defined.

(** ** A zero scale *)

(** C10, as the code has it.  When the scale of a sensor is zero, the
    relative-to-native conversion of a float raises [ZeroDivisionError]; the
    native-to-relative conversion returns [ts * 0 - offset]. *)
Theorem zero_scale_scalar_division_error (s : sensor) (st : store)
    (scale offset : json) (b t : Qc) :
  getitem st (scale_key s) = Ok scale -> as_num scale = Ok 0 ->
  getitem st (offset_key s) = Ok offset -> as_num offset = Ok b ->
  call (RelativeToNative s) st (Scalar t) = Err ZeroDivisionError
  /\ call (NativeToRelative s) st (Scalar t) = Ok (OScalar (t * 0 - b))
  /\ forall ts, call (NativeToRelative s) st (Batch ts)
                = Ok (OBatch (map (fun t => t * 0 - b) ts)).
Proof.
  intros Hk Hz Hb Hn.
  assert (Hcall : call (NativeToRelative s) = native_to_relative s
                  /\ call (RelativeToNative s) = relative_to_native s)
    by (destruct s; split; reflexivity).
  destruct Hcall as [-> ->].
  unfold native_to_relative, relative_to_native.
  rewrite (getitem_truthy _ _ _ Hk), Hk, Hb. simpl.
  rewrite Hz, Hn. simpl. repeat split.
Qed.

Lemma zero_scale_scalar_example :
  dvs_relative_to_native zero_scale (Scalar (num 5.0)) = Err ZeroDivisionError
  /\ dvs_native_to_relative zero_scale (Scalar (num 5.0))
     = Ok (OScalar (num 5.0 * 0 - num 12.5)).
Proof.
  destruct (zero_scale_scalar_division_error DVS zero_scale (JNum 0)
              (JNum (num 12.5)) (num 12.5) (num 5.0)
              eq_refl eq_refl eq_refl eq_refl) as (H1 & H2 & _).
  split; [exact H1 | exact H2].
Defined.

(** C10, as stated, fails for an array: numpy divides by zero without
    raising and returns an array of non-finite entries. *)
Lemma zero_scale_batch_no_error :
  getitem zero_scale (scale_key DVS) = Ok (JNum 0)
  /\ dvs_relative_to_native zero_scale (Batch [num 5.0]) = Ok (ONonFinite 1)
  /\ dvs_relative_to_native zero_scale (Batch [num 5.0]) <> Err ZeroDivisionError.
Proof.
  repeat split; try reflexivity. discriminate.
Qed.

(** * Further properties of the module *)

(** ** Loading *)

Lemma load_all_app (json_loads : string -> result json) (a b : list string)
    (st : store) :
  load_all json_loads (a ++ b)%list st = load_all json_loads b (load_all json_loads a st).
Proof. unfold load_all. apply fold_left_app. Qed.

Lemma load_all_failures (json_loads : string -> result json) (texts : list string)
    (st : store) :
  Forall (fun text => exists e, json_loads text = Err e) texts ->
  load_all json_loads texts st = st.
Proof.
  intros H. revert st. induction H as [|text texts [e He] _ IH]; intros st.
  - reflexivity.
  - unfold load_all in *. simpl. unfold load_from_json_string at 2.
    rewrite He. simpl. apply IH.
Qed.

(** X1.  After any sequence of loads the store holds the document of the
    last load that succeeded, whatever was loaded or failed before it and
    however many loads failed after it; when every load fails the store is
    what it was. *)
Theorem store_holds_last_successful_load (json_loads : string -> result json)
    (before after : list string) (text : string) (doc : json) (st : store) :
  json_loads text = Ok doc ->
  Forall (fun t => exists e, json_loads t = Err e) after ->
  load_all json_loads (before ++ text :: after)%list st = doc
  /\ load_all json_loads after st = st.
Proof.
  intros Hok Hfail. split; [|now apply load_all_failures].
  rewrite load_all_app. change (text :: after) with ([text] ++ after)%list.
  rewrite load_all_app, load_all_failures by exact Hfail.
  unfold load_all. simpl. unfold load_from_json_string. now rewrite Hok.
Qed.

Lemma store_holds_last_successful_load_example :
  load_all (sample_loads scenario) (["{}"; "oops"] ++ "calibration" :: ["oops"; ""])%list
    TIMECONVS = scenario
  /\ load_all (sample_loads scenario) ["oops"; ""] TIMECONVS = TIMECONVS.
Proof.
  apply (store_holds_last_successful_load (sample_loads scenario)
           ["{}"; "oops"] ["oops"; ""] "calibration" scenario TIMECONVS eq_refl).
  repeat constructor; exists ValueError; reflexivity.
Defined.

(** X2.  [load_from_file] on a file that cannot be read, or whose content
    does not parse, raises that error and leaves the store as it was, so
    every conversion answers as before the call; on a file that reads and
    parses, the store becomes the parsed document whatever it held. *)
Theorem load_from_file_outcomes (json_loads : string -> result json)
    (read_file : string -> result string) (filename : string) (st : store)
    (f : conversion) (x : timestamps) :
  (forall e, read_file filename = Err e ->
     snd (load_from_file json_loads read_file filename st) = Err e
     /\ call f (fst (load_from_file json_loads read_file filename st)) x
        = call f st x)
  /\ (forall text e, read_file filename = Ok text -> json_loads text = Err e ->
     snd (load_from_file json_loads read_file filename st) = Err e
     /\ call f (fst (load_from_file json_loads read_file filename st)) x
        = call f st x)
  /\ (forall text doc, read_file filename = Ok text -> json_loads text = Ok doc ->
     load_from_file json_loads read_file filename st
     = load_from_json_string json_loads text TIMECONVS
     /\ call f (fst (load_from_file json_loads read_file filename st)) x
        = call f doc x).
Proof.
  unfold load_from_file, load_from_json_string. split; [|split].
  - intros e He. rewrite He. split; reflexivity.
  - intros text e Hr He. rewrite Hr, He. split; reflexivity.
  - intros text doc Hr Hd. rewrite Hr, Hd. split; reflexivity.
Qed.

Lemma load_from_file_outcomes_example :
  (snd (load_from_file (sample_loads scenario) sample_files "missing.json" one_inner)
   = Err OSError
   /\ call (Cross RsToDvs)
        (fst (load_from_file (sample_loads scenario) sample_files "missing.json"
                one_inner)) (Scalar (num 5.0))
      = call (Cross RsToDvs) one_inner (Scalar (num 5.0)))
  /\ call (Cross RsToDvs)
       (fst (load_from_file (sample_loads scenario) sample_files "timeconvs.json"
               one_inner)) (Scalar (num 5.0))
     = call (Cross RsToDvs) scenario (Scalar (num 5.0)).
Proof.
  split.
  - apply (load_from_file_outcomes (sample_loads scenario) sample_files
             "missing.json" one_inner (Cross RsToDvs) (Scalar (num 5.0))).
    reflexivity.
  - apply (load_from_file_outcomes (sample_loads scenario) sample_files
             "timeconvs.json" one_inner (Cross RsToDvs) (Scalar (num 5.0))
             ) with (text := "calibration"); reflexivity.
Defined.

(** ** Documents of the wrong shape *)

Lemma call_unfold (f : conversion) :
  call f = match f with
           | Cross c => convert (table_key c)
           | NativeToRelative s => native_to_relative s
           | RelativeToNative s => relative_to_native s
           end.
Proof. destruct f as [[]|[]|[]]; reflexivity. Qed.

(** X3.  A loaded document that is truthy but not an object (a non-empty
    array or string, a nonzero number, [true]) passes the initialization
    guard, and every conversion then raises [TypeError] at its first
    subscript. *)
Theorem non_object_document_type_error (doc : json) (f : conversion)
    (x : timestamps) :
  truthy doc = true ->
  (forall fields, doc <> JObj fields) ->
  call f doc x = Err TypeError.
Proof.
  intros Ht Hn. rewrite call_unfold.
  assert (Hg : forall k, getitem doc k = Err TypeError).
  { intros k. destruct doc; try reflexivity. now destruct (Hn fields). }
  destruct f; unfold convert, native_to_relative, relative_to_native;
    rewrite Ht, Hg; reflexivity.
Qed.

Lemma non_object_document_example :
  call (RelativeToNative LIDAR) (JArr [JNum (num 1.0)]) (Batch [num 5.0])
  = Err TypeError.
Proof.
  apply non_object_document_type_error; [reflexivity | discriminate].
Defined.

(** X4.  On a non-empty object, a cross-sensor conversion whose table is
    missing raises [KeyError]; a native-to-relative conversion raises
    [KeyError] when the scale is missing, whatever the offset; a
    relative-to-native conversion raises [KeyError] when the offset is
    missing, whatever the scale, and also when the offset is a number and
    the scale is missing.  The keys of the other conversions are not
    looked at. *)
Theorem missing_key_error (fields : list (string * json)) (x : timestamps) :
  fields <> [] ->
  (forall c, lookup (table_key c) fields = None ->
     cross_convert c (JObj fields) x = Err KeyError)
  /\ (forall s, lookup (scale_key s) fields = None ->
     call (NativeToRelative s) (JObj fields) x = Err KeyError)
  /\ (forall s, lookup (offset_key s) fields = None ->
     call (RelativeToNative s) (JObj fields) x = Err KeyError)
  /\ (forall s offset b, lookup (offset_key s) fields = Some offset ->
     as_num offset = Ok b -> lookup (scale_key s) fields = None ->
     call (RelativeToNative s) (JObj fields) x = Err KeyError).
Proof.
  intros Hne.
  assert (Ht : truthy (JObj fields) = true) by (destruct fields; [easy | reflexivity]).
  split; [|split; [|split]].
  - intros c Hl. rewrite cross_convert_eq. unfold convert.
    rewrite Ht. simpl. now rewrite Hl.
  - intros s Hl. rewrite call_unfold. unfold native_to_relative.
    rewrite Ht. simpl. now rewrite Hl.
  - intros s Hl. rewrite call_unfold. unfold relative_to_native.
    rewrite Ht. simpl. now rewrite Hl.
  - intros s offset b Ho Hb Hl. rewrite call_unfold. unfold relative_to_native.
    rewrite Ht. simpl. rewrite Ho. simpl. rewrite Hb. simpl. now rewrite Hl.
Qed.

Lemma missing_key_error_example :
  convert_dvs_to_rs only_rs_to_dvs (Scalar (num 1.5)) = Err KeyError
  /\ dvs_native_to_relative only_rs_to_dvs (Scalar (num 1.5)) = Err KeyError.
Proof.
  assert (Hne : [("rs_to_dvs", JArr (map rule_json [inner_1_2]))] <> [])
    by discriminate.
  destruct (missing_key_error _ (Scalar (num 1.5)) Hne) as (Hc & Hn & _).
  split.
  - exact (Hc DvsToRs eq_refl).
  - exact (Hn DVS eq_refl).
Defined.

(** X5.  A table without rules (an empty list, and likewise an empty object
    or an empty string, over which the loop does not turn) converts every
    float to [None] and every array to zeros of its length, without
    error. *)
Theorem empty_table (c : cross) (st : store) (v : json) :
  getitem st (table_key c) = Ok v ->
  iterate v = Ok [] ->
  (forall t, cross_convert c st (Scalar t) = Ok ONone)
  /\ (forall ts, cross_convert c st (Batch ts) = Ok (OBatch (map (fun _ => 0) ts))).
Proof.
  intros Hg Hi. rewrite cross_convert_eq. unfold convert.
  rewrite (getitem_truthy _ _ _ Hg), Hg. simpl. rewrite Hi.
  split; reflexivity.
Qed.

Lemma empty_table_example :
  (forall t, convert_dvs_to_rs scenario (Scalar t) = Ok ONone)
  /\ (forall ts, convert_dvs_to_rs scenario (Batch ts)
                 = Ok (OBatch (map (fun _ => 0) ts))).
Proof.
  exact (empty_table DvsToRs scenario (JArr []) eq_refl eq_refl).
Defined.

(** ** What a conversion can return, on any document *)

Lemma scatter_length (out : list Qc) (bs : list bool) (vals : list Qc) :
  List.length (scatter out bs vals) = List.length out.
Proof.
  revert bs vals. induction out as [|o out IH]; intros [|[] bs] vals;
    simpl; try reflexivity.
  - destruct vals as [|v vals]; simpl; [reflexivity | now rewrite IH].
  - now rewrite IH.
Qed.

Lemma rule_step_batch_shape (tc : json) (ts out : list Qc) (o : output) :
  rule_step tc (Batch ts) (OBatch out) = Ok o ->
  exists out', o = OBatch out' /\ List.length out' = List.length out.
Proof.
  unfold rule_step.
  destruct (indexes_of tc (Batch ts)) as [[b|bs]|e]; simpl; try discriminate.
  destruct (coefficients tc) as [kb|e]; simpl; try discriminate.
  intros H. injection H as <-. eexists. split; [reflexivity | apply scatter_length].
Qed.

Lemma rule_loop_batch_shape (tcs : list json) (ts out : list Qc) (o : output) :
  rule_loop tcs (Batch ts) (OBatch out) = Ok o ->
  exists out', o = OBatch out' /\ List.length out' = List.length out.
Proof.
  revert out. induction tcs as [|tc tcs IH]; intros out; simpl.
  - intros H. injection H as <-. now exists out.
  - destruct (rule_step tc (Batch ts) (OBatch out)) as [acc|e] eqn:Hs;
      simpl; [|discriminate].
    destruct (rule_step_batch_shape _ _ _ _ Hs) as (out1 & -> & Hl1).
    intros H. destruct (IH _ H) as (out2 & -> & Hl2).
    exists out2. split; [reflexivity | congruence].
Qed.

(** X6.  On any document, whenever a cross-sensor conversion of an array
    returns, it returns an array of the same length. *)
Theorem batch_shape_preserved (c : cross) (st : store) (ts : list Qc)
    (o : output) :
  cross_convert c st (Batch ts) = Ok o ->
  exists out, o = OBatch out /\ List.length out = List.length ts.
Proof.
  rewrite cross_convert_eq. unfold convert.
  destruct (truthy st); simpl; [|discriminate].
  destruct (getitem st (table_key c)) as [v|e]; simpl; [|discriminate].
  destruct (iterate v) as [tcs|e]; simpl; [|discriminate].
  intros H. destruct (rule_loop_batch_shape _ _ _ _ H) as (out & -> & Hl).
  exists out. split; [reflexivity|]. now rewrite Hl, length_map.
Qed.

Lemma batch_shape_preserved_example :
  exists out, OBatch [0; 0] = OBatch out /\ List.length out = 2%nat.
Proof.
  apply (batch_shape_preserved DvsToRs scenario [num 5.0; num 10.0]).
  reflexivity.
Defined.

Lemma rule_step_scalar_inv (tc : json) (t : Qc) (acc o : output) :
  rule_step tc (Scalar t) acc = Ok o ->
  (rejects tc t /\ o = acc)
  \/ (matches tc t
      /\ exists k b, coefficients tc = Ok (k, b) /\ o = OScalar (t * k + b)).
Proof.
  unfold rule_step, matches, rejects.
  destruct (indexes_of tc (Scalar t)) as [[[]|bs]|e]; simpl; try discriminate.
  - destruct (coefficients tc) as [[k b]|e]; simpl; [|discriminate].
    intros H. injection H as <-. right. split; [reflexivity|].
    now exists k, b.
  - intros H. injection H as <-. left. now split.
Qed.

Lemma rule_loop_scalar_sound (tcs : list json) (t : Qc) (acc o : output) :
  rule_loop tcs (Scalar t) acc = Ok o ->
  (o = acc /\ Forall (fun tc => rejects tc t) tcs)
  \/ (exists pre tc post k b,
        tcs = (pre ++ tc :: post)%list
        /\ matches tc t
        /\ coefficients tc = Ok (k, b)
        /\ Forall (fun tc' => rejects tc' t) post
        /\ o = OScalar (t * k + b)).
Proof.
  revert acc. induction tcs as [|tc tcs IH]; intros acc; simpl.
  - intros H. injection H as <-. left. now split.
  - destruct (rule_step tc (Scalar t) acc) as [acc'|e] eqn:Hs; simpl; [|discriminate].
    intros H. destruct (IH _ H) as [[-> Hall] | (pre & tc' & post & k & b & -> & Hr)].
    + destruct (rule_step_scalar_inv _ _ _ _ Hs) as [[Hrej ->] | (Hm & k & b & Hc & ->)].
      * left. split; [reflexivity | now constructor].
      * right. exists [], tc, tcs, k, b. repeat split; assumption.
    + right. exists (tc :: pre), tc', post, k, b. split; [reflexivity | exact Hr].
Qed.

(** X7.  On any document, whenever a cross-sensor conversion of a float
    returns, it returns either [None], and then the test of every rule of
    the table answered false, or [t * conv_k + conv_b] for the coefficients
    of a rule whose test holds at [t] and after which no rule's test
    holds.  It never returns an array. *)
Theorem scalar_result_sound (c : cross) (st : store) (v : json)
    (tcs : list json) (t : Qc) (o : output) :
  getitem st (table_key c) = Ok v ->
  iterate v = Ok tcs ->
  cross_convert c st (Scalar t) = Ok o ->
  (o = ONone /\ Forall (fun tc => rejects tc t) tcs)
  \/ (exists pre tc post k b,
        tcs = (pre ++ tc :: post)%list
        /\ matches tc t
        /\ coefficients tc = Ok (k, b)
        /\ Forall (fun tc' => rejects tc' t) post
        /\ o = OScalar (t * k + b)).
Proof.
  intros Hg Hi. rewrite cross_convert_eq. unfold convert.
  rewrite (getitem_truthy _ _ _ Hg), Hg. simpl. rewrite Hi. simpl.
  apply rule_loop_scalar_sound.
Qed.

Lemma scalar_result_sound_example :
  (OScalar (num 1.5 * num 2.0 + num 1.0) = ONone
   /\ Forall (fun tc => rejects tc (num 1.5)) [rule_json inner_1_2])
  \/ (exists pre tc post k b,
        [rule_json inner_1_2] = (pre ++ tc :: post)%list
        /\ matches tc (num 1.5)
        /\ coefficients tc = Ok (k, b)
        /\ Forall (fun tc' => rejects tc' (num 1.5)) post
        /\ OScalar (num 1.5 * num 2.0 + num 1.0) = OScalar (num 1.5 * k + b)).
Proof.
  apply (scalar_result_sound RsToDvs one_inner (JArr [rule_json inner_1_2])
           [rule_json inner_1_2] (num 1.5)); reflexivity.
Defined.

(** ** Rules that raise *)

Lemma indexes_of_scalar_batch (tc : json) (t : Qc) (b : bool) (ts : list Qc) :
  indexes_of tc (Scalar t) = Ok (MBool b) ->
  exists bs, indexes_of tc (Batch ts) = Ok (MArr bs).
Proof.
  unfold indexes_of.
  destruct (getitem tc "interval") as [iv|e]; simpl; [|discriminate].
  destruct (getitem tc "inner") as [inn|e]; simpl; [|discriminate].
  destruct (truthy inn).
  - destruct (getidx iv 0) as [l|e]; simpl; [|discriminate].
    unfold py_gt, py_le.
    destruct (as_num l) as [n|e]; simpl; [|discriminate].
    destruct (getidx iv 1) as [h|e]; simpl; [|discriminate].
    destruct (as_num h) as [m|e]; simpl; [|discriminate].
    intros _. eexists. reflexivity.
  - destruct (getidx iv 0) as [l|e]; simpl; [|discriminate].
    destruct (is_None l).
    + destruct (getidx iv 1) as [h|e]; simpl; [|discriminate].
      unfold py_le. destruct (as_num h) as [m|e]; simpl; [|discriminate].
      intros _. eexists. reflexivity.
    + destruct (getidx iv 1) as [h|e]; simpl; [|discriminate].
      destruct (is_None h); [|discriminate]. simpl.
      unfold py_gt. destruct (as_num l) as [n|e]; simpl; [|discriminate].
      intros _. eexists. reflexivity.
Qed.

(** X8.  A rule without [conv_k] is harmless to a float its test rejects:
    the conversion answers as if the rule were not in the table.  For an
    array the coefficients are read at every rule, so the same table raises
    [KeyError] once the loop reaches the rule, whatever the array holds. *)
Theorem missing_coefficient_scalar_vs_array (c : cross) (st st' : store)
    (pre post : list json) (tc : json) (t : Qc) :
  getitem st (table_key c) = Ok (JArr (pre ++ tc :: post)) ->
  getitem st' (table_key c) = Ok (JArr (pre ++ post)) ->
  getitem tc "conv_k" = Err KeyError ->
  rejects tc t ->
  cross_convert c st (Scalar t) = cross_convert c st' (Scalar t)
  /\ forall ts acc,
       rule_loop pre (Batch ts) (initial_output (Batch ts)) = Ok acc ->
       cross_convert c st (Batch ts) = Err KeyError.
Proof.
  intros Hg Hg' Hk Hrej. rewrite !cross_convert_eq. unfold convert.
  rewrite (getitem_truthy _ _ _ Hg), (getitem_truthy _ _ _ Hg'), Hg, Hg'.
  simpl. split.
  - rewrite !rule_loop_app.
    destruct (rule_loop pre (Scalar t) ONone) as [acc|e]; simpl; [|reflexivity].
    unfold rule_step. unfold rejects in Hrej. now rewrite Hrej.
  - intros ts acc Hpre. rewrite rule_loop_app, Hpre. simpl.
    destruct (rule_loop_batch_shape _ _ _ _ Hpre) as (out & -> & _).
    destruct (indexes_of_scalar_batch _ _ _ ts Hrej) as (bs & Hbs).
    unfold rule_step, coefficients. rewrite Hbs, Hk. reflexivity.
Qed.

Lemma missing_coefficient_example :
  convert_rs_to_dvs table_without_conv_k (Scalar (num 5.0))
  = convert_rs_to_dvs (JObj [("rs_to_dvs", JArr [])]) (Scalar (num 5.0))
  /\ convert_rs_to_dvs table_without_conv_k (Batch [num 5.0]) = Err KeyError.
Proof.
  destruct (missing_coefficient_scalar_vs_array RsToDvs table_without_conv_k
              (JObj [("rs_to_dvs", JArr [])]) [] [] rule_without_conv_k (num 5.0)
              eq_refl eq_refl eq_refl eq_refl) as [Hs Hb].
  split; [exact Hs|]. exact (Hb [num 5.0] _ eq_refl).
Defined.

(** X9.  For a float, a rule that compares against an absent endpoint
    raises [TypeError] once the loop reaches it: an inner rule whose lower
    or upper endpoint is absent, and a rule that is not inner and has no
    endpoint at all. *)
Theorem absent_endpoint_type_error (c : cross) (st : store)
    (pre post : list json) (tc interval inner : json) (t : Qc) (acc : output) :
  getitem st (table_key c) = Ok (JArr (pre ++ tc :: post)) ->
  rule_loop pre (Scalar t) ONone = Ok acc ->
  getitem tc "interval" = Ok interval ->
  getitem tc "inner" = Ok inner ->
  (truthy inner = true /\ getidx interval 0 = Ok JNull)
  \/ (truthy inner = true
      /\ (exists lo n, getidx interval 0 = Ok lo /\ as_num lo = Ok n)
      /\ getidx interval 1 = Ok JNull)
  \/ (truthy inner = false
      /\ getidx interval 0 = Ok JNull /\ getidx interval 1 = Ok JNull) ->
  cross_convert c st (Scalar t) = Err TypeError.
Proof.
  intros Hg Hpre Hiv Hin Hcases.
  rewrite cross_convert_eq. unfold convert.
  rewrite (getitem_truthy _ _ _ Hg), Hg. simpl.
  rewrite rule_loop_app, Hpre. simpl.
  unfold rule_step, indexes_of. rewrite Hiv, Hin. simpl.
  destruct Hcases as [[Ht H0] | [(Ht & (l & n & H0 & Hn) & H1) | (Ht & H0 & H1)]];
    rewrite Ht, H0; simpl.
  - reflexivity.
  - unfold py_gt. rewrite Hn. simpl. rewrite H1. reflexivity.
  - rewrite H1. reflexivity.
Qed.

Lemma absent_endpoint_example :
  convert_rs_to_dvs inner_without_lo (Scalar (num 1.5)) = Err TypeError.
Proof.
  apply (absent_endpoint_type_error RsToDvs inner_without_lo [] []
           (rule_json (mk_rule None (Some 2.0%Q) true 2.0 1.0))
           (JArr [JNull; JNum (num 2.0)]) (JBool true) (num 1.5) ONone
           eq_refl eq_refl eq_refl eq_refl).
  left. split; reflexivity.
Defined.

(** ** Tables built from successive change points *)

Lemma in_interval_upper (r : IntervalRule) (b t : Qc) :
  well_formed r = true -> hi r = Some b -> in_interval r t = true -> t <= b.
Proof.
  destruct r as [[a|] [h|] [] k c]; unfold well_formed, in_interval; simpl;
    intros Hw Hh; try discriminate; injection Hh as ->.
  - rewrite andb_true_iff. intros [_ H]. now apply Qcleb_le.
  - apply Qcleb_le.
Qed.

Lemma in_interval_lower (r : IntervalRule) (a t : Qc) :
  well_formed r = true -> lo r = Some a -> in_interval r t = true -> a < t.
Proof.
  destruct r as [[l|] [b|] [] k c]; unfold well_formed, in_interval; simpl;
    intros Hw Hl; try discriminate; injection Hl as ->.
  - rewrite andb_true_iff. intros [H _]. now apply Qcltb_lt.
  - apply Qcltb_lt.
Qed.

(** X10.  Two well-formed rules of which one ends where the other begins
    never both match: the shared endpoint belongs to the rule it closes.
    When moreover the first has no lower and the second no upper endpoint,
    every timestamp matches exactly one of the two. *)
Theorem shared_endpoint_disjoint (tc1 tc2 : json) (r1 r2 : IntervalRule)
    (b t : Qc) :
  decode_rule tc1 = Some r1 -> decode_rule tc2 = Some r2 ->
  well_formed r1 = true -> well_formed r2 = true ->
  hi r1 = Some b -> lo r2 = Some b ->
  ~ (matches tc1 t /\ matches tc2 t)
  /\ (lo r1 = None -> hi r2 = None ->
      (matches tc1 t /\ rejects tc2 t) \/ (rejects tc1 t /\ matches tc2 t)).
Proof.
  intros Hd1 Hd2 Hw1 Hw2 Hh Hl.
  destruct (matches_iff _ _ t Hd1 Hw1) as [Hm1 Hr1].
  destruct (matches_iff _ _ t Hd2 Hw2) as [Hm2 Hr2].
  rewrite Hm1, Hm2, Hr1, Hr2. split.
  - intros [H1 H2].
    apply (in_interval_upper _ b t Hw1 Hh) in H1.
    apply (in_interval_lower _ b t Hw2 Hl) in H2.
    exact (Qclt_not_le _ _ H2 H1).
  - intros Hl1 Hh2.
    destruct r1 as [l1 h1 [] k1 c1], r2 as [l2 h2 [] k2 c2];
      unfold in_interval, well_formed in *; simpl in *; subst;
      try discriminate.
    unfold Qcleb, Qcltb, Qccompare. rewrite <- (Qcompare_antisym t b).
    destruct (Qcompare t b); simpl; auto.
Qed.

Lemma shared_endpoint_disjoint_example :
  ~ (matches (rule_json (mk_rule None (Some 10.0%Q) false 2.0 1.0)) (num 10.0)
     /\ matches (rule_json (mk_rule (Some 10.0%Q) None false 3.0 (-5.0))) (num 10.0)).
Proof.
  apply (shared_endpoint_disjoint _ _
           (mk_rule None (Some 10.0%Q) false 2.0 1.0)
           (mk_rule (Some 10.0%Q) None false 3.0 (-5.0))
           (num 10.0) (num 10.0)); reflexivity.
Defined.

Lemma find_hd_filter {A : Type} (p : A -> bool) (l : list A) :
  find p l = hd_error (filter p l).
Proof.
  induction l as [|a l IH]; simpl; [reflexivity|].
  destruct (p a); [reflexivity | exact IH].
Qed.

Lemma find_rev_unique {A : Type} (p : A -> bool) (l : list A) :
  (List.length (filter p l) <= 1)%nat -> find p (rev l) = find p l.
Proof.
  intros H. rewrite !find_hd_filter, filter_rev.
  destruct (filter p l) as [|a [|a' l']]; simpl in *; try reflexivity. lia.
Qed.

(** X11.  When at most one rule of the table matches a float, the
    conversion returns the value of the first rule that matches it: on a
    table without overlap, first match and last match are the same rule. *)
Theorem conflict_free_first_match (c : cross) (doc : json)
    (rules : list IntervalRule) (t : Qc) :
  decode_table doc (table_key c) = Some rules ->
  forallb well_formed rules = true ->
  (List.length (filter (fun r => in_interval r t) rules) <= 1)%nat ->
  cross_convert c doc (Scalar t)
  = Ok (match first_match rules t with
        | Some r => OScalar (t * conv_k r + conv_b r)
        | None => ONone
        end).
Proof.
  intros Hd Hw Hu. rewrite cross_convert_eq, (convert_scalar _ _ _ t Hd Hw).
  unfold last_match, first_match. now rewrite find_rev_unique.
Qed.

Lemma conflict_free_first_match_example :
  convert_rs_to_dvs partition (Scalar (num 1.5))
  = Ok (OScalar (num 1.5 * num 2.0 + num 1.0)).
Proof.
  apply (conflict_free_first_match RsToDvs partition _ (num 1.5)
           (decode_rules_json _) eq_refl).
  vm_compute. lia.
Defined.

(** ** Arrays against floats, position by position *)

(** X12.  On a table of well-formed rules, converting an array gives at
    every position what converting that entry as a float gives, with zero
    where the float conversion returns [None]. *)
Theorem batch_is_map_of_scalar (c : cross) (doc : json)
    (rules : list IntervalRule) (ts : list Qc) :
  decode_table doc (table_key c) = Some rules ->
  forallb well_formed rules = true ->
  cross_convert c doc (Batch ts)
  = Ok (OBatch (map (fun t => entry_of (cross_convert c doc (Scalar t))) ts)).
Proof.
  intros Hd Hw. rewrite cross_convert_eq, (convert_batch _ _ _ ts Hd Hw).
  do 2 f_equal. apply map_ext. intros t.
  rewrite (convert_scalar _ _ _ t Hd Hw), fold_write_last.
  now destruct (last_match rules t).
Qed.

Lemma batch_is_map_of_scalar_example :
  convert_rs_to_dvs one_inner (Batch [num 1.5; num 5.0])
  = Ok (OBatch [entry_of (convert_rs_to_dvs one_inner (Scalar (num 1.5)));
                entry_of (convert_rs_to_dvs one_inner (Scalar (num 5.0)))]).
Proof.
  exact (batch_is_map_of_scalar RsToDvs one_inner _ [num 1.5; num 5.0]
           (decode_rules_json _) eq_refl).
Defined.

(** ** Native and relative formats on arrays *)

(** X15.  With a numeric scale and offset, the native-to-relative
    conversion of an array returns, at every position, what the conversion
    of that entry as a float returns; so does the relative-to-native
    conversion when the scale is not zero. *)
Theorem native_relative_entrywise (s : sensor) (st : store)
    (scale offset : json) (k b : Qc) (ts : list Qc) :
  getitem st (scale_key s) = Ok scale -> as_num scale = Ok k ->
  getitem st (offset_key s) = Ok offset -> as_num offset = Ok b ->
  call (NativeToRelative s) st (Batch ts)
  = Ok (OBatch (map (fun t => entry_of (call (NativeToRelative s) st (Scalar t))) ts))
  /\ (k <> 0 ->
      call (RelativeToNative s) st (Batch ts)
      = Ok (OBatch (map (fun t => entry_of (call (RelativeToNative s) st (Scalar t))) ts))).
Proof.
  intros Hk Hn Ho Hb. rewrite !call_unfold.
  unfold native_to_relative, relative_to_native.
  rewrite (getitem_truthy _ _ _ Hk), Hk, Ho. simpl. rewrite Hn, Hb. simpl.
  split; [reflexivity|].
  intros Hnz. apply Qceqb_neq in Hnz. rewrite Hnz. simpl. now rewrite map_map.
Qed.

Lemma native_relative_entrywise_example :
  rs_native_to_relative scenario (Batch [num 1.0; num 2.0])
  = Ok (OBatch (map (fun t => entry_of (rs_native_to_relative scenario (Scalar t)))
                  [num 1.0; num 2.0])).
Proof.
  apply (native_relative_entrywise RS scenario (JNum (num 0.000001))
           (JNum (num 12.5)) (num 0.000001) (num 12.5) [num 1.0; num 2.0]);
    reflexivity.
Defined.

(** ** A table that is not a list *)

(** X16.  A table that is not a list raises [TypeError] in the
    cross-sensor conversion: a number, a boolean or [null] because it cannot
    be iterated, a non-empty object or string because the loop then runs
    over strings, which have no ["interval"]. *)
Theorem table_not_a_list_type_error (c : cross) (st : store) (v : json)
    (x : timestamps) :
  getitem st (table_key c) = Ok v ->
  (forall items, v <> JArr items) ->
  iterate v <> Ok [] ->
  cross_convert c st x = Err TypeError.
Proof.
  intros Hg Hn He. rewrite cross_convert_eq. unfold convert.
  rewrite (getitem_truthy _ _ _ Hg), Hg. simpl.
  destruct v as [| | |s|items|fields]; try reflexivity.
  - destruct s as [|ch s]; [now destruct He | reflexivity].
  - now destruct (Hn items).
  - destruct fields as [|[key w] fields]; [now destruct He | reflexivity].
Qed.

Lemma table_not_a_list_example :
  convert_rs_to_dvs (JObj [("rs_to_dvs", rule_json inner_1_2)]) (Scalar (num 1.5))
  = Err TypeError.
Proof.
  apply (table_not_a_list_type_error RsToDvs _ (rule_json inner_1_2));
    [reflexivity | discriminate | discriminate].
Defined.
